(** * habitica-md: the settings lifecycle of the Habitica plugin

    A shallow embedding of [src/main.ts].  The plugin keeps one settings
    object ([this.settings]), fills it from the host's persistence backend
    with [Object.assign({}, DEFAULT_SETTINGS, await this.loadData())], lets
    two text fields overwrite one property each, and writes the whole object
    back with [this.saveData(this.settings)].

    JavaScript objects are mutable and shared, so the two objects the module
    owns ([DEFAULT_SETTINGS] and the object behind [this.settings]) live in a
    heap of property maps and are named by locations.  The data that crosses
    the backend boundary is JSON and is passed by value.  Every [async]
    function is a computation in a state-and-failure monad; [await] is its
    bind, a rejected promise is a [Throw]. *)

From Stdlib Require Import PrimFloat Ascii.
From stdpp Require Import gmap strings list fin_maps pretty.

Set Warnings "-register-all".

(** ** JavaScript values *)

(** What [loadData()] may hand back ([Promise<any>]): [undefined], [null], or
    a parsed JSON document.  Numbers are IEEE doubles.  A string is a list of
    8-bit characters here (JavaScript has 16-bit code units; nothing below
    looks inside a character). *)
Inductive JsValue : Type :=
| JUndefined
| JNull
| JBoolean (b : bool)
| JNumber (x : float)
| JString (s : string)
| JArray (items : list JsValue)
| JObject (props : gmap string JsValue).

Abbreviation JsObj := (gmap string JsValue).

(** The one-character strings a String wrapper object exposes as "0", "1", ... *)
Fixpoint chars (s : string) : list JsValue :=
  match s with
  | EmptyString => []
  | String c rest => JString (String c EmptyString) :: chars rest
  end.

(** Properties "0" .. "n-1" of an array or of a String wrapper. *)
Definition index_props (items : list JsValue) : JsObj :=
  list_to_map (imap (λ i v, (pretty i, v)) items).

(** The own enumerable string-keyed properties [Object.assign] copies from a
    source: nothing for [undefined] and [null] (they are skipped), nothing for
    a boolean or a number (their wrappers have none), the indices of a string
    or an array, every key of a plain object. *)
Definition ownProps (v : JsValue) : JsObj :=
  match v with
  | JUndefined | JNull => ∅
  | JBoolean _ | JNumber _ => ∅
  | JString s => index_props (chars s)
  | JArray items => index_props items
  | JObject props => props
  end.

(** What copying [props] into a target adds to the target's own properties.
    [Object.assign] writes with [target[k] = v]; for the key ["__proto__"]
    that write runs the accessor every new object inherits from
    [Object.prototype], which may replace the target's prototype and never
    gives it an own property.  (Prototypes themselves are not modelled: the
    plugin reads [apiToken] and [userId] only, which every record owns.) *)
Definition assigned (props : JsObj) : JsObj := delete "__proto__" props.

(** [o.k] for an own property: its value, [undefined] when it is absent. *)
Definition getProp (o : JsObj) (k : string) : JsValue :=
  default JUndefined (o !! k).

(** ** The settings interface *)

(** [interface HabiticaPluginSettings { apiToken: string; userId: string }].
    The interface is erased at run time; it only names the two properties the
    plugin itself reads and writes. *)
Inductive Field := apiToken | userId.

Definition field_name (f : Field) : string :=
  match f with
  | apiToken => "apiToken"
  | userId => "userId"
  end.

(** [const DEFAULT_SETTINGS = { apiToken: '', userId: '' }] (its contents). *)
Definition DEFAULT_SETTINGS_init : JsObj :=
  <[ "apiToken" := JString "" ]> (<[ "userId" := JString "" ]> ∅).

(** ** The persistence backend (the host's [Plugin.loadData]/[saveData]) *)

(** The host is not part of the repository: it is an interface.  [loadData]
    resolves to the stored value or rejects with a reason; [saveData]
    resolves or rejects, and leaves the store in some state either way. *)
Class Backend (Store : Type) := {
  loadData : Store → JsValue + JsValue;
  saveData : JsValue → Store → (JsValue + unit) * Store
}.

(** A backend is faithful when a load that follows a save which resolved
    resolves to the saved document. *)
Class Faithful {Store : Type} (B : Backend Store) : Prop :=
  load_after_save :
    ∀ (data : JsValue) (st st' : Store),
      saveData data st = (inr tt, st') → loadData st' = inr data.

(** ** Heap, plugin state and the host's event log *)

Abbreviation loc := nat.

Inductive Event :=
| ConsoleLog (message : string)
| LoadData
| SaveData (data : JsValue)
| AddSettingTab
| AddRibbonIcon (icon title : string)
| NewNotice (message : string).

(** [heap] holds the objects of the module, [settings] is the field
    [this.settings] ([None] is [undefined], its value before the first load),
    [store] is the backend's state and [trace] the calls made to the host,
    oldest first. *)
Record State (Store : Type) := mkState {
  heap : gmap loc JsObj;
  settings : option loc;
  store : Store;
  trace : list Event
}.
Arguments mkState {Store}.
Arguments heap {Store}.
Arguments settings {Store}.
Arguments store {Store}.
Arguments trace {Store}.

(** The location of the module constant [DEFAULT_SETTINGS]. *)
Definition DEFAULT_SETTINGS : loc := 0.

Inductive Failure :=
| TypeError
| StorageFailure (reason : JsValue).

Inductive Result (A : Type) :=
| Ok (a : A)
| Throw (e : Failure).
Arguments Ok {A}.
Arguments Throw {A}.

(** An argument of a call: a reference to an object of the heap, or a value. *)
Inductive Operand :=
| Ref (l : loc)
| Val (v : JsValue).

Section Plugin.
Context {Store : Type} {B : Backend Store}.

(** The state right after the module is evaluated and the plugin object
    constructed, over a given backend store. *)
Definition initial (st : Store) : State Store :=
  mkState {[ DEFAULT_SETTINGS := DEFAULT_SETTINGS_init ]} None st [].

Definition M (A : Type) : Type := State Store → Result A * State Store.

Definition ret {A} (a : A) : M A := λ s, (Ok a, s).

Definition bind {A C} (m : M A) (k : A → M C) : M C :=
  λ s, match m s with
       | (Ok a, s') => k a s'
       | (Throw e, s') => (Throw e, s')
       end.

Definition throw {A} (e : Failure) : M A := λ s, (Throw e, s).

(** [this.<field>] and the heap, read without changing anything. *)
Definition gets {A} (f : State Store → A) : M A := λ s, (Ok (f s), s).

Definition emit (ev : Event) : M unit :=
  λ s, (Ok tt, mkState (heap s) (settings s) (store s) (trace s ++ [ev])).

Notation "'let!' x := m 'in' k" := (bind m (λ x, k))
  (at level 10, x name, m at level 100, k at level 200).
Notation "m >> k" := (bind m (λ _, k))
  (at level 100, k at level 200, right associativity).

(** *** What the language and the host provide *)

(** [{}]: a new empty object. *)
Definition new_object : M loc :=
  λ s, let l := fresh (dom (heap s)) in
       (Ok l, mkState (<[ l := ∅ ]> (heap s)) (settings s) (store s) (trace s)).

(** The properties a source contributes, read when its turn comes. *)
Definition source_props (h : gmap loc JsObj) (src : Operand) : JsObj :=
  match src with
  | Ref l => default ∅ (h !! l)
  | Val v => ownProps v
  end.

(** [Object.assign(target, ...sources)]: the sources are copied into the
    target object in order, a later one overwriting an earlier one, and the
    target itself is returned.  No other object is written.  (The plugin's
    one call has a new object as target and a parsed document as last
    source, the only one that can own ["__proto__"].) *)
Definition Object_assign (target : loc) (sources : list Operand) : M loc :=
  λ s, let h := foldl (λ h src, alter (λ o, assigned (source_props h src) ∪ o)
                                      target h)
                      (heap s) sources in
       (Ok target, mkState h (settings s) (store s) (trace s)).

Definition console_log (message : string) : M unit := emit (ConsoleLog message).

(** [new Notice(message)]. *)
Definition new_Notice (message : string) : M unit := emit (NewNotice message).

(** [await this.loadData()]. *)
Definition await_loadData : M JsValue :=
  emit LoadData >>
  λ s, match loadData (store s) with
       | inr raw => (Ok raw, s)
       | inl reason => (Throw (StorageFailure reason), s)
       end.

(** [await this.saveData(data)]. *)
Definition await_saveData (data : JsValue) : M unit :=
  emit (SaveData data) >>
  λ s, let '(r, st) := saveData data (store s) in
       let s' := mkState (heap s) (settings s) st (trace s) in
       match r with
       | inr _ => (Ok tt, s')
       | inl reason => (Throw (StorageFailure reason), s')
       end.

Definition addSettingTab : M unit := emit AddSettingTab.

Definition addRibbonIcon (icon title : string) : M unit :=
  emit (AddRibbonIcon icon title).

(** The object behind [this.settings], if there is one. *)
Definition record (s : State Store) : option JsObj :=
  match settings s with
  | None => None
  | Some l => heap s !! l
  end.

(** The value of the expression [this.settings], as the backend receives
    it: the object's properties at the time of the call. *)
Definition settings_value (s : State Store) : JsValue :=
  match settings s with
  | None => JUndefined
  | Some l => JObject (default ∅ (heap s !! l))
  end.

(** *** [class HabiticaPlugin] *)

(** [this.settings = Object.assign({}, DEFAULT_SETTINGS, await this.loadData())].
    The arguments are evaluated left to right, so the empty object exists
    before the backend is asked; the field is assigned last. *)
Definition loadSettings : M unit :=
  let! target := new_object in
  let! raw := await_loadData in
  let! merged := Object_assign target [Ref DEFAULT_SETTINGS; Val raw] in
  λ s, (Ok tt, mkState (heap s) (Some merged) (store s) (trace s)).

(** [await this.saveData(this.settings)]. *)
Definition saveSettings : M unit :=
  let! data := gets settings_value in
  await_saveData data.

(** The ribbon icon's callback. *)
Definition syncCallback : M unit :=
  new_Notice "Syncing with Habitica...".

Definition onload : M unit :=
  console_log "Loading Habitica Plugin" >>
  loadSettings >>
  addSettingTab >>
  addRibbonIcon "checkmark" "Sync with Habitica".

Definition onunload : M unit :=
  console_log "Unloading Habitica Plugin".

(** *** [class HabiticaSettingTab] *)

(** [this.plugin.settings.<field> = value], the first statement of each
    [onChange] handler.  Writing a property of [undefined] is a TypeError. *)
Definition update (f : Field) (value : string) : M unit :=
  λ s, match settings s with
       | None => throw TypeError s
       | Some l =>
           (Ok tt, mkState (alter (insert (field_name f) (JString value)) l (heap s))
                           (settings s) (store s) (trace s))
       end.

(** The handler a text field calls on every change:
    [this.plugin.settings.<field> = value; await this.plugin.saveSettings()]. *)
Definition onChange (f : Field) (value : string) : M unit :=
  update f value >>
  saveSettings.

(** What [display()] puts into the (emptied) container. *)
Inductive Widget :=
| Heading (text : string)
| TextSetting (name desc placeholder : string) (value : JsValue) (handler : Field).

(** [display()].  Each row reads [this.plugin.settings.<field>] for its
    initial value, which is a TypeError while [this.settings] is
    [undefined].  Only the finished container is modelled. *)
Definition display (s : State Store) : Result (list Widget) :=
  match record s with
  | None => Throw TypeError
  | Some o =>
      Ok [ Heading "Habitica Plugin Settings";
           TextSetting "API Token" "Your Habitica API Token" "Enter your API token"
                       (getProp o "apiToken") apiToken;
           TextSetting "User ID" "Your Habitica User ID" "Enter your User ID"
                       (getProp o "userId") userId ]
  end.

(** *** Runs of the plugin *)

(** What the host and the user can make the plugin do. *)
Inductive Op :=
| DoOnload
| DoOnunload
| DoLoadSettings
| DoSaveSettings
| DoUpdate (f : Field) (value : string)
| DoChange (f : Field) (value : string)
| DoSync.

Definition run_op (op : Op) : M unit :=
  match op with
  | DoOnload => onload
  | DoOnunload => onunload
  | DoLoadSettings => loadSettings
  | DoSaveSettings => saveSettings
  | DoUpdate f v => update f v
  | DoChange f v => onChange f v
  | DoSync => syncCallback
  end.

(** Each operation is a separate callback: one that throws does not stop
    the host from making the next call. *)
Definition run_ops (ops : list Op) (s : State Store) : State Store :=
  foldl (λ s op, snd (run_op op s)) s ops.

(** A sequence of [update] calls, stopping at the first that throws. *)
Fixpoint updates (ups : list (Field * string)) : M unit :=
  match ups with
  | [] => ret tt
  | (f, v) :: rest => update f v >> updates rest
  end.

(** The value a sequence of updates writes last to the property [k]. *)
Fixpoint last_write (k : string) (ups : list (Field * string)) : option string :=
  match ups with
  | [] => None
  | (f, v) :: rest =>
      match last_write k rest with
      | Some w => Some w
      | None => if decide (field_name f = k) then Some v else None
      end
  end.

(** What holds of every state the plugin reaches (shown below): the module
    constant still has the contents it was created with, [this.settings]
    does not alias it, and once [this.settings] is set it is an object of
    the heap that has both fields of the interface and no own property
    ["__proto__"]. *)
Definition consistent (s : State Store) : Prop :=
  heap s !! DEFAULT_SETTINGS = Some DEFAULT_SETTINGS_init ∧
  ∀ l, settings s = Some l →
       l ≠ DEFAULT_SETTINGS ∧
       ∃ o, heap s !! l = Some o ∧ o !! "__proto__" = None ∧
            ∀ f, is_Some (o !! field_name f).

(** The record names no property besides those of the interface. *)
Definition only_interface_fields (o : JsObj) : Prop :=
  ∀ k, is_Some (o !! k) → k = "apiToken" ∨ k = "userId".

End Plugin.

(** ** A concrete backend *)

(** The host's [data.json]: absent or holding the last saved document, on a
    disk that may be out of order.  With no file, [loadData] resolves to
    [null]. *)
Record Disk := mkDisk {
  file : option JsValue;
  broken : bool
}.

#[global] Instance DiskBackend : Backend Disk := {
  loadData d :=
    if broken d then inl (JString "EIO") else inr (default JNull (file d));
  saveData data d :=
    if broken d then (inl (JString "EIO"), d) else (inr tt, mkDisk (Some data) false)
}.

#[global] Instance DiskBackend_faithful : Faithful DiskBackend.
Proof.
  intros data [f b] st'. cbn. destruct b; intros [= <-]; done.
Qed.

(** Stores and states the statements below are tried on. *)

(** First run: no [data.json]. *)
Definition no_data : Disk := mkDisk None false.

(** [data.json] is [{"apiToken": "abc"}]. *)
Definition token_only : JsObj := {[ "apiToken" := JString "abc" ]}.

(** [data.json] is [{"apiToken": "abc", "theme": "dark"}]. *)
Definition with_theme : JsObj :=
  <[ "apiToken" := JString "abc" ]> {[ "theme" := JString "dark" ]}.

Definition disk_of (doc : JsObj) : Disk := mkDisk (Some (JObject doc)) false.

(** The plugin loaded its settings on a first run, then the disk broke. *)
Definition loaded_then_broken : State Disk :=
  let s := run_ops [DoLoadSettings] (initial no_data) in
  mkState (heap s) (settings s) (mkDisk None true) (trace s).

(** ** Vocabulary for statements about whole runs *)

(** The documents handed to [saveData] so far, oldest first. *)
Definition saved (tr : list Event) : list JsValue :=
  omap (λ ev, match ev with SaveData data => Some data | _ => None end) tr.

(** A record as the interface promises it: both fields are there, and there
    is no own property ["__proto__"]. *)
Definition complete (o : JsObj) : Prop :=
  o !! "__proto__" = None ∧ ∀ f, is_Some (o !! field_name f).

(** A document [saveData] can be given by this plugin. *)
Definition saved_ok (data : JsValue) : Prop :=
  data = JUndefined ∨ ∃ o, data = JObject o ∧ complete o.

(** A computation that neither calls [saveData] nor changes the store. *)
Definition quiet {Store A : Type} (m : State Store → Result A * State Store) : Prop :=
  ∀ s, store (snd (m s)) = store s ∧
       saved (trace (snd (m s))) = saved (trace s).

(** Whether a stored document is a mapping. *)
Definition is_mapping (v : JsValue) : bool :=
  match v with
  | JObject _ => true
  | _ => false
  end.

(** The elements [Object.assign] finds under the indices of a document that
    is a string or an array. *)
Definition elements (v : JsValue) : list JsValue :=
  match v with
  | JString s => chars s
  | JArray items => items
  | _ => []
  end.

Definition is_digit (c : ascii) : bool :=
  match c with
  | "0" | "1" | "2" | "3" | "4" | "5" | "6" | "7" | "8" | "9" => true
  | _ => false
  end%char.

(** A decimal numeral, as the keys of an array are. *)
Fixpoint all_digits (k : string) : bool :=
  match k with
  | EmptyString => true
  | String c rest => is_digit c && all_digits rest
  end.

(** The rows [display()] builds for a record. *)
Definition rows (o : JsObj) : list Widget :=
  [ Heading "Habitica Plugin Settings";
    TextSetting "API Token" "Your Habitica API Token" "Enter your API token"
                (getProp o "apiToken") apiToken;
    TextSetting "User ID" "Your Habitica User ID" "Enter your User ID"
                (getProp o "userId") userId ].

(** * Properties *)

Section Runs.
Context {Store : Type} {B : Backend Store}.
Implicit Types (s : State Store) (o D R : JsObj) (l : loc).

(** ** Each operation, run on an arbitrary state *)

Lemma fresh_not_allocated (h : gmap loc JsObj) : h !! fresh (dom h) = None.
Proof. apply not_elem_of_dom, is_fresh. Qed.

Lemma fresh_ne_allocated (h : gmap loc JsObj) l :
  is_Some (h !! l) → fresh (dom h) ≠ l.
Proof.
  intros Hl Heq. rewrite <- Heq, fresh_not_allocated in Hl. by destruct Hl.
Qed.

(** [loadSettings] in one step: the merge lands in a new object, and a
    rejected [loadData] leaves [this.settings] as it was. *)
Lemma loadSettings_run s :
  heap s !! DEFAULT_SETTINGS = Some DEFAULT_SETTINGS_init →
  loadSettings s =
    let l := fresh (dom (heap s)) in
    match loadData (store s) with
    | inr raw =>
        (Ok tt, mkState (<[ l := assigned (ownProps raw) ∪ DEFAULT_SETTINGS_init ]>
                          (heap s)) (Some l)
                        (store s) (trace s ++ [LoadData]))
    | inl reason =>
        (Throw (StorageFailure reason),
         mkState (<[ l := ∅ ]> (heap s)) (settings s)
                 (store s) (trace s ++ [LoadData]))
    end.
Proof.
  intros HD.
  assert (fresh (dom (heap s)) ≠ DEFAULT_SETTINGS) as Hne
    by (apply fresh_ne_allocated; eauto).
  unfold loadSettings, bind, new_object, await_loadData, emit, Object_assign.
  cbn. destruct (loadData (store s)) as [reason|raw]; cbn; [done|].
  rewrite lookup_insert_ne, HD by done. cbn.
  rewrite !alter_insert_eq, (right_id_L ∅ (∪)). done.
Qed.

Lemma saveSettings_run s :
  saveSettings s =
    let data := settings_value s in
    let '(r, st) := saveData data (store s) in
    let s' := mkState (heap s) (settings s) st (trace s ++ [SaveData data]) in
    match r with
    | inr _ => (Ok tt, s')
    | inl reason => (Throw (StorageFailure reason), s')
    end.
Proof.
  unfold saveSettings, bind, await_saveData, emit. cbn.
  destruct (saveData (settings_value s) (store s)) as [[reason|[]] st]; done.
Qed.

Lemma update_run s l f value :
  settings s = Some l →
  update f value s =
    (Ok tt, mkState (alter (insert (field_name f) (JString value)) l (heap s))
                    (Some l) (store s) (trace s)).
Proof. intros Hl. unfold update. by rewrite Hl. Qed.

Lemma update_undefined s f value :
  settings s = None → update f value s = (Throw TypeError, s).
Proof. intros Hl. unfold update. by rewrite Hl. Qed.

Lemma record_update s l o f value :
  settings s = Some l → heap s !! l = Some o →
  record (snd (update f value s)) = Some (<[ field_name f := JString value ]> o).
Proof.
  intros Hs Hl. rewrite (update_run s l) by done. unfold record. cbn.
  by rewrite lookup_alter_eq, Hl.
Qed.

Lemma bind_ok {A C} (m : M A) (k : A → M C) s a s1 :
  m s = (Ok a, s1) → bind m k s = k a s1.
Proof. intros Hm. unfold bind. by rewrite Hm. Qed.

Lemma bind_throw {A C} (m : M A) (k : A → M C) s e s1 :
  m s = (Throw e, s1) → bind m k s = (Throw e, s1).
Proof. intros Hm. unfold bind. by rewrite Hm. Qed.

(** ** The invariant of the reachable states *)

Lemma consistent_same_objects s s' :
  heap s' = heap s → settings s' = settings s → consistent s → consistent s'.
Proof. unfold consistent. by intros -> ->. Qed.

Lemma consistent_initial (st : Store) : consistent (initial st).
Proof. split; [done | by intros l [=]]. Qed.

Lemma defaults_have_fields (f : Field) :
  is_Some (DEFAULT_SETTINGS_init !! field_name f).
Proof. destruct f; by eexists. Qed.

Lemma merged_has_fields (props : JsObj) (f : Field) :
  is_Some ((assigned props ∪ DEFAULT_SETTINGS_init) !! field_name f).
Proof.
  destruct (defaults_have_fields f) as [v Hv].
  destruct (assigned props !! field_name f) as [w|] eqn:Hw.
  - exists w. by apply lookup_union_Some_l.
  - exists v. by rewrite lookup_union_r.
Qed.

Lemma merged_no_proto (props : JsObj) :
  (assigned props ∪ DEFAULT_SETTINGS_init) !! "__proto__" = None.
Proof.
  apply lookup_union_None. split; [apply lookup_delete_eq | done].
Qed.

Lemma merged_lookup (props : JsObj) k v :
  k ≠ "__proto__" → props !! k = Some v →
  (assigned props ∪ DEFAULT_SETTINGS_init) !! k = Some v.
Proof.
  intros Hk Hv. apply lookup_union_Some_l. unfold assigned.
  by rewrite lookup_delete_ne.
Qed.

Lemma consistent_emit ev s : consistent s → consistent (snd (emit ev s)).
Proof. by apply consistent_same_objects. Qed.

Lemma consistent_loadSettings s : consistent s → consistent (snd (loadSettings s)).
Proof.
  intros [HD Hset]. rewrite (loadSettings_run s HD). cbn.
  assert (fresh (dom (heap s)) ≠ DEFAULT_SETTINGS) as Hne
    by (apply fresh_ne_allocated; eauto).
  destruct (loadData (store s)) as [reason|raw]; cbn.
  - split; cbn; [by rewrite lookup_insert_ne|].
    intros l Hl. destruct (Hset l Hl) as (Hl0 & o & Ho & Hp & Hf).
    split; [done|]. exists o. split; [|done].
    rewrite lookup_insert_ne; [done|]. apply fresh_ne_allocated; eauto.
  - split; cbn; [by rewrite lookup_insert_ne|].
    intros l [= <-]. split; [done|]. eexists. split; [apply lookup_insert_eq|].
    split; [apply merged_no_proto | apply merged_has_fields].
Qed.

Lemma consistent_saveSettings s : consistent s → consistent (snd (saveSettings s)).
Proof.
  rewrite saveSettings_run. cbn.
  destruct (saveData (settings_value s) (store s)) as [[reason|[]] st];
    by apply consistent_same_objects.
Qed.

Lemma consistent_update f value s :
  consistent s → consistent (snd (update f value s)).
Proof.
  intros [HD Hset]. destruct (settings s) as [l|] eqn:Hl.
  - destruct (Hset l eq_refl) as (Hl0 & o & Ho & Hp & Hf).
    rewrite (update_run s l) by done. split; cbn.
    + by rewrite lookup_alter_ne.
    + intros ? [= <-]. split; [done|].
      exists (<[ field_name f := JString value ]> o). split; [|split].
      * by rewrite lookup_alter_eq, Ho.
      * rewrite lookup_insert_ne; [done | by destruct f].
      * intros g. rewrite lookup_insert_is_Some'. by right.
  - rewrite update_undefined by done. split; [done|]. cbn. intros l Hl'.
    by rewrite Hl in Hl'.
Qed.

Lemma consistent_bind {A C} (m : M A) (k : A → M C) s :
  (∀ s, consistent s → consistent (snd (m s))) →
  (∀ a s, consistent s → consistent (snd (k a s))) →
  consistent s → consistent (snd (bind m k s)).
Proof.
  intros Hm Hk Hs. unfold bind. specialize (Hm s Hs).
  destruct (m s) as [[a|e] s1]; cbn in *; auto.
Qed.

Lemma consistent_onload s : consistent s → consistent (snd (onload s)).
Proof.
  intros Hs. unfold onload, console_log, addSettingTab, addRibbonIcon.
  apply consistent_bind; [apply consistent_emit | intros _ s1 H1 | done].
  apply consistent_bind; [apply consistent_loadSettings | intros _ s2 H2 | done].
  apply consistent_bind; [apply consistent_emit | intros _ s3 H3 | done].
  by apply consistent_emit.
Qed.

Lemma consistent_onChange f value s :
  consistent s → consistent (snd (onChange f value s)).
Proof.
  intros Hs. unfold onChange.
  apply consistent_bind; [apply consistent_update | intros _ s1 H1 | done].
  by apply consistent_saveSettings.
Qed.

Lemma consistent_run_op op s : consistent s → consistent (snd (run_op op s)).
Proof.
  destruct op; cbn [run_op];
    auto using consistent_onload, consistent_onChange, consistent_loadSettings,
      consistent_saveSettings, consistent_update, consistent_emit.
Qed.

Lemma consistent_run_ops ops s : consistent s → consistent (run_ops ops s).
Proof.
  revert s. induction ops as [|op ops IH]; intros s Hs; [done|].
  apply IH, consistent_run_op, Hs.
Qed.

(** ** Loading *)

(** A load that found a document: the record is the document laid over the
    defaults. *)
Lemma loadSettings_record s raw :
  heap s !! DEFAULT_SETTINGS = Some DEFAULT_SETTINGS_init →
  loadData (store s) = inr raw →
  ∃ s', loadSettings s = (Ok tt, s') ∧
        record s' = Some (assigned (ownProps raw) ∪ DEFAULT_SETTINGS_init) ∧
        store s' = store s ∧
        heap s' !! DEFAULT_SETTINGS = Some DEFAULT_SETTINGS_init.
Proof.
  intros HD Hraw. rewrite (loadSettings_run s HD), Hraw. cbn.
  eexists. split; [done|]. unfold record. cbn.
  rewrite lookup_insert_eq, lookup_insert_ne; [done|].
  apply fresh_ne_allocated; eauto.
Qed.

(** C1: whatever mapping [R] the backend returns, [loadSettings] succeeds and
    leaves a record in which each of [apiToken] and [userId] reads as [R]'s
    value when [R] has the field and as the empty string when not.  More
    generally a property missing from [R] is as [DEFAULT_SETTINGS] has it,
    and a property present in [R] has the value [R] gives it (the key
    ["__proto__"] apart, which is never copied as a property). *)
Theorem loadSettings_merges_defaults s R :
  heap s !! DEFAULT_SETTINGS = Some DEFAULT_SETTINGS_init →
  loadData (store s) = inr (JObject R) →
  ∃ s' o,
    loadSettings s = (Ok tt, s') ∧ record s' = Some o ∧
    (∀ f, getProp o (field_name f) =
          match R !! field_name f with
          | Some v => v
          | None => JString ""
          end) ∧
    (∀ k, R !! k = None → o !! k = DEFAULT_SETTINGS_init !! k) ∧
    (∀ k v, k ≠ "__proto__" → R !! k = Some v → o !! k = Some v).
Proof.
  intros HD HR. destruct (loadSettings_record s _ HD HR) as (s' & Hrun & Hrec & _).
  exists s', (assigned R ∪ DEFAULT_SETTINGS_init). cbn [ownProps] in Hrec.
  split; [done|]. split; [done|]. split; [|split].
  - intros f. unfold getProp.
    destruct (R !! field_name f) as [v|] eqn:Hf.
    + rewrite (merged_lookup R _ v); [done | by destruct f | done].
    + rewrite lookup_union_r by (apply lookup_delete_None; by right).
      by destruct f.
  - intros k Hk. rewrite lookup_union_r; [done|].
    apply lookup_delete_None. by right.
  - intros k v Hne Hk. by apply merged_lookup.
Qed.

(** C6: with no prior data, be it [null], [undefined] or an empty mapping,
    [loadSettings] does not fail and the record is the default one,
    [{apiToken: "", userId: ""}]. *)
Theorem loadSettings_without_prior_data s raw :
  heap s !! DEFAULT_SETTINGS = Some DEFAULT_SETTINGS_init →
  loadData (store s) = inr raw →
  raw = JNull ∨ raw = JUndefined ∨ raw = JObject ∅ →
  ∃ s', loadSettings s = (Ok tt, s') ∧
        record s' = Some DEFAULT_SETTINGS_init ∧
        DEFAULT_SETTINGS_init !! "apiToken" = Some (JString "") ∧
        DEFAULT_SETTINGS_init !! "userId" = Some (JString "") ∧
        only_interface_fields DEFAULT_SETTINGS_init.
Proof.
  intros HD Hraw Hno.
  destruct (loadSettings_record s _ HD Hraw) as (s' & Hrun & Hrec & _).
  exists s'. split; [done|]. split.
  - rewrite Hrec. f_equal.
    destruct Hno as [-> | [-> | ->]]; cbn [ownProps]; unfold assigned;
      rewrite delete_empty; apply (left_id_L ∅ (∪)).
  - repeat split; try done. intros k [v Hk]. unfold DEFAULT_SETTINGS_init in Hk.
    apply lookup_insert_Some in Hk as [[<- _] | [_ Hk]]; [by left|].
    apply lookup_insert_Some in Hk as [[<- _] | [_ Hk]]; [by right|done].
Qed.

(** A load, resolved or rejected, leaves the store and the defaults alone. *)
Lemma loadSettings_frame s :
  heap s !! DEFAULT_SETTINGS = Some DEFAULT_SETTINGS_init →
  store (snd (loadSettings s)) = store s ∧
  heap (snd (loadSettings s)) !! DEFAULT_SETTINGS = Some DEFAULT_SETTINGS_init.
Proof.
  intros HD. rewrite (loadSettings_run s HD). cbn zeta.
  assert (fresh (dom (heap s)) ≠ DEFAULT_SETTINGS) as Hne
    by (apply fresh_ne_allocated; eauto).
  destruct (loadData (store s)); cbn; by rewrite lookup_insert_ne.
Qed.

(** Two loads over the same store end the same way, with equal records. *)
Lemma loadSettings_same_store s1 s2 :
  heap s1 !! DEFAULT_SETTINGS = Some DEFAULT_SETTINGS_init →
  heap s2 !! DEFAULT_SETTINGS = Some DEFAULT_SETTINGS_init →
  store s2 = store s1 →
  fst (loadSettings s2) = fst (loadSettings s1) ∧
  (fst (loadSettings s1) = Ok tt →
   ∃ o, record (snd (loadSettings s1)) = Some o ∧
        record (snd (loadSettings s2)) = Some o).
Proof.
  intros HD1 HD2 Hst.
  rewrite (loadSettings_run s1 HD1), (loadSettings_run s2 HD2), Hst. cbn zeta.
  destruct (loadData (store s1)) as [reason|raw]; cbn [fst snd]; [done|].
  split; [done|]. intros _. eexists. unfold record. cbn [settings heap].
  by rewrite !lookup_insert_eq.
Qed.

(** C7: two loads in a row end the same way, and when they succeed the two
    records are equal; the first load does not change the store, and the
    same holds of a second load made in any state over the same store. *)
Theorem loadSettings_idempotent s :
  heap s !! DEFAULT_SETTINGS = Some DEFAULT_SETTINGS_init →
  let first := loadSettings s in
  let second := loadSettings (snd first) in
  store (snd first) = store s ∧
  fst second = fst first ∧
  (fst first = Ok tt →
   ∃ o, record (snd first) = Some o ∧ record (snd second) = Some o) ∧
  ∀ later,
    heap later !! DEFAULT_SETTINGS = Some DEFAULT_SETTINGS_init →
    store later = store s →
    fst (loadSettings later) = fst first ∧
    (fst first = Ok tt →
     ∃ o, record (snd first) = Some o ∧
          record (snd (loadSettings later)) = Some o).
Proof.
  intros HD first second. destruct (loadSettings_frame s HD) as [Hst HD'].
  split; [done|].
  destruct (loadSettings_same_store s (snd first) HD HD' Hst) as [Hres Hrec].
  split; [done|]. split; [done|].
  intros later HDl Hstl. by apply loadSettings_same_store.
Qed.

(** ** Updating *)

Lemma last_write_cons k f v ups :
  last_write k ((f, v) :: ups) =
    match last_write k ups with
    | Some w => Some w
    | None => if decide (field_name f = k) then Some v else None
    end.
Proof. done. Qed.

(** C4: a sequence of [update] calls on a loaded record runs to its end; the
    record then holds, for every property, the value written to it last, or
    its prior value when no call named it; no other object changed; and
    neither the store nor the log of host calls changed, so nothing was
    persisted. *)
Theorem updates_last_write_wins ups s l o :
  settings s = Some l →
  heap s !! l = Some o →
  ∃ s' o',
    updates ups s = (Ok tt, s') ∧
    settings s' = Some l ∧ heap s' !! l = Some o' ∧
    (∀ k, o' !! k = match last_write k ups with
                    | Some v => Some (JString v)
                    | None => o !! k
                    end) ∧
    (∀ l', l' ≠ l → heap s' !! l' = heap s !! l') ∧
    store s' = store s ∧ trace s' = trace s.
Proof.
  revert s o. induction ups as [|[f v] ups IH]; intros s o Hs Ho.
  - exists s, o. by repeat split.
  - cbn [updates]. unfold bind. rewrite (update_run s l) by done.
    set (s1 := mkState _ _ _ _).
    destruct (IH s1 (<[ field_name f := JString v ]> o)) as
      (s' & o' & Hrun & Hs' & Ho' & Hlast & Hframe & Hstore & Htrace).
    { done. }
    { subst s1. cbn. by rewrite lookup_alter_eq, Ho. }
    exists s', o'. repeat split; try done.
    + intros k. rewrite Hlast, last_write_cons.
      destruct (last_write k ups); [done|].
      rewrite lookup_insert. by repeat case_decide.
    + intros l' Hl'. rewrite (Hframe l' Hl'). subst s1. cbn.
      by rewrite lookup_alter_ne.
Qed.

(** ** Persisting *)

(** The defaults name no property that a consistent record lacks. *)
Lemma union_defaults_absorbed o :
  (∀ f, is_Some (o !! field_name f)) → o ∪ DEFAULT_SETTINGS_init = o.
Proof.
  intros Hf. apply map_eq. intros k. rewrite lookup_union.
  destruct (o !! k) as [v|] eqn:Hk; [by destruct (DEFAULT_SETTINGS_init !! k)|].
  destruct (DEFAULT_SETTINGS_init !! k) as [d|] eqn:Hd; [|done].
  exfalso. unfold DEFAULT_SETTINGS_init in Hd.
  apply lookup_insert_Some in Hd as [[<- _] | [_ Hd]].
  { destruct (Hf apiToken) as [? Hx]. cbn in Hx. congruence. }
  apply lookup_insert_Some in Hd as [[<- _] | [_ Hd]]; [|done].
  destruct (Hf userId) as [? Hx]. cbn in Hx. congruence.
Qed.

(** C2: over a faithful backend, whatever the plugin did before (loads,
    updates, saves, in any order), once it has a record [S], a
    [saveSettings] that succeeds followed by a [loadSettings] in a new
    instance over the store it wrote gives a record equal to [S]. *)
Theorem save_then_fresh_load_roundtrip `{!Faithful B} st ops s' :
  let s := run_ops ops (initial st) in
  is_Some (record s) →
  saveSettings s = (Ok tt, s') →
  ∃ s'', loadSettings (initial (store s')) = (Ok tt, s'') ∧
         record s'' = record s.
Proof.
  intros s [S HS] Hsave.
  destruct (consistent_run_ops ops _ (consistent_initial st)) as [_ Hset].
  fold s in Hset. unfold record in HS.
  destruct (settings s) as [l|] eqn:Hl; [|done].
  destruct (Hset l eq_refl) as (_ & o & Ho & Hp & Hf).
  rewrite Ho in HS. injection HS as <-.
  rewrite saveSettings_run in Hsave. cbn zeta in Hsave.
  assert (settings_value s = JObject o) as Hv
    by (unfold settings_value; by rewrite Hl, Ho).
  rewrite Hv in Hsave.
  destruct (saveData (JObject o) (store s)) as [[reason|[]] st'] eqn:Hbackend;
    [done|].
  injection Hsave as <-. cbn [store].
  apply load_after_save in Hbackend.
  destruct (loadSettings_record (initial st') (JObject o)) as (s'' & Hrun & Hrec & _);
    [done..|].
  exists s''. split; [done|]. rewrite Hrec. cbn [ownProps]. unfold assigned.
  rewrite (delete_id o _ Hp), (union_defaults_absorbed o Hf).
  unfold record. by rewrite Hl, Ho.
Qed.

(** C3, as the code has it: [loadSettings] keeps every property of the
    stored mapping [R], those outside the interface included, with [R]'s
    value (all but the key ["__proto__"], which is never copied as a
    property), and the next [saveSettings] hands that whole record to
    [saveData]. *)
Theorem loadSettings_keeps_extra_fields s R :
  heap s !! DEFAULT_SETTINGS = Some DEFAULT_SETTINGS_init →
  loadData (store s) = inr (JObject R) →
  ∃ s' o,
    loadSettings s = (Ok tt, s') ∧ record s' = Some o ∧
    o = assigned R ∪ DEFAULT_SETTINGS_init ∧
    (∀ k v, k ≠ "__proto__" → R !! k = Some v → o !! k = Some v) ∧
    trace (snd (saveSettings s')) = trace s' ++ [SaveData (JObject o)].
Proof.
  intros HD HR. rewrite (loadSettings_run s HD), HR. cbn zeta.
  eexists _, _. split; [done|].
  assert (fresh (dom (heap s)) ≠ DEFAULT_SETTINGS) as Hne
    by (apply fresh_ne_allocated; eauto).
  unfold record. cbn [settings heap ownProps]. rewrite lookup_insert_eq.
  repeat split.
  - intros k v Hk Hv. by apply merged_lookup.
  - rewrite saveSettings_run. unfold settings_value. cbn.
    rewrite lookup_insert_eq. cbn.
    by destruct (saveData _ _) as [[?|?] ?].
Qed.

(** C5: when [saveData] rejects the record an edit produced, [saveSettings]
    (and the [onChange] handler around it) ends with that very rejection as
    a storage failure; [saveData] was called once; and the record in memory
    is the updated one. *)
Theorem save_failure_propagates s l o f value reason st' :
  settings s = Some l →
  heap s !! l = Some o →
  let o' := <[ field_name f := JString value ]> o in
  saveData (JObject o') (store s) = (inl reason, st') →
  let s1 := snd (update f value s) in
  let failed := mkState (heap s1) (settings s1) st'
                        (trace s ++ [SaveData (JObject o')]) in
  update f value s = (Ok tt, s1) ∧
  saveSettings s1 = (Throw (StorageFailure reason), failed) ∧
  onChange f value s = (Throw (StorageFailure reason), failed) ∧
  record failed = Some o'.
Proof.
  intros Hs Ho o' Hfail s1 failed.
  assert (update f value s = (Ok tt, s1)) as Hup
    by (subst s1; by rewrite (update_run s l)).
  assert (record s1 = Some o') as Hrec by (by apply (record_update s l)).
  assert (settings_value s1 = JObject o') as Hv.
  { unfold record in Hrec. unfold settings_value.
    destruct (settings s1); [by rewrite Hrec | done]. }
  assert (store s1 = store s ∧ trace s1 = trace s) as [Hst Htr]
    by (subst s1; by rewrite (update_run s l)).
  assert (saveSettings s1 = (Throw (StorageFailure reason), failed)) as Hsave.
  { rewrite saveSettings_run, Hv, Hst, Htr. cbn zeta. by rewrite Hfail. }
  repeat split; try done.
  unfold onChange, bind. by rewrite Hup.
Qed.

(** ** The lifecycle *)

(** C8: [onload] asks the backend before it registers anything.  When the
    load resolves, the state in which the setting tab and then the ribbon
    icon are registered already has the loaded record, with both fields, and
    [display] shows their values; the log reads load, tab, icon in that
    order.  When the load is rejected, [onload] ends with that rejection and
    registers nothing. *)
Theorem onload_loads_before_registering s :
  heap s !! DEFAULT_SETTINGS = Some DEFAULT_SETTINGS_init →
  match loadData (store s) with
  | inr raw =>
      ∃ loaded s' o,
        bind (console_log "Loading Habitica Plugin") (λ _, loadSettings) s
          = (Ok tt, loaded) ∧
        bind addSettingTab (λ _, addRibbonIcon "checkmark" "Sync with Habitica")
             loaded = (Ok tt, s') ∧
        onload s = (Ok tt, s') ∧
        trace loaded = trace s ++ [ConsoleLog "Loading Habitica Plugin"; LoadData] ∧
        trace s' = trace loaded ++
                   [AddSettingTab; AddRibbonIcon "checkmark" "Sync with Habitica"] ∧
        record loaded = Some o ∧ record s' = Some o ∧
        o = assigned (ownProps raw) ∪ DEFAULT_SETTINGS_init ∧
        (∀ f, is_Some (o !! field_name f)) ∧
        display loaded =
          Ok [ Heading "Habitica Plugin Settings";
               TextSetting "API Token" "Your Habitica API Token"
                           "Enter your API token" (getProp o "apiToken") apiToken;
               TextSetting "User ID" "Your Habitica User ID"
                           "Enter your User ID" (getProp o "userId") userId ]
  | inl reason =>
      ∃ s', onload s = (Throw (StorageFailure reason), s') ∧
            trace s' = trace s ++ [ConsoleLog "Loading Habitica Plugin"; LoadData] ∧
            settings s' = settings s
  end.
Proof.
  intros HD.
  set (s0 := mkState (heap s) (settings s) (store s)
                     (trace s ++ [ConsoleLog "Loading Habitica Plugin"])).
  assert (console_log "Loading Habitica Plugin" s = (Ok tt, s0)) as Hlog by done.
  pose proof (loadSettings_run s0 HD) as Hload.
  cbn [heap store settings trace s0] in Hload. cbn zeta in Hload.
  rewrite <- (assoc_L (++)) in Hload. cbn [app] in Hload.
  unfold onload. rewrite (bind_ok _ _ _ _ _ Hlog).
  destruct (loadData (store s)) as [reason|raw].
  - eexists. rewrite (bind_throw _ _ _ _ _ Hload). done.
  - eexists _, _, _. rewrite (bind_ok _ _ _ _ _ Hlog), (bind_ok _ _ _ _ _ Hload).
    split; [done|]. split; [done|]. split; [done|]. cbn [trace].
    rewrite <- (assoc_L (++)). unfold record, display, record.
    cbn [settings heap app]. rewrite lookup_insert_eq.
    repeat split. apply merged_has_fields.
Qed.

(** C9: the ribbon callback always succeeds; it adds one notice to the log
    and leaves the heap, [this.settings] and the store as they were. *)
Theorem syncCallback_only_notifies s :
  ∃ s', syncCallback s = (Ok tt, s') ∧
        trace s' = trace s ++ [NewNotice "Syncing with Habitica..."] ∧
        heap s' = heap s ∧ settings s' = settings s ∧ store s' = store s ∧
        record s' = record s ∧ settings_value s' = settings_value s.
Proof.
  unfold syncCallback, new_Notice, emit. eexists. split; [reflexivity|].
  by repeat split.
Qed.

(** C10: whatever the host and the user make the plugin do, the object
    [DEFAULT_SETTINGS] keeps the contents [{apiToken: "", userId: ""}]:
    [this.settings] is never that object, and a load puts its merge into an
    object that did not exist before. *)
Theorem DEFAULT_SETTINGS_never_mutated (st : Store) (ops : list Op) :
  let s := run_ops ops (initial st) in
  heap s !! DEFAULT_SETTINGS = Some DEFAULT_SETTINGS_init ∧
  DEFAULT_SETTINGS_init !! "apiToken" = Some (JString "") ∧
  DEFAULT_SETTINGS_init !! "userId" = Some (JString "") ∧
  settings s ≠ Some DEFAULT_SETTINGS ∧
  ∃ target, fst (new_object s) = Ok target ∧ heap s !! target = None ∧
    ∀ raw, loadData (store s) = inr raw →
           settings (snd (loadSettings s)) = Some target.
Proof.
  intros s.
  destruct (consistent_run_ops ops _ (consistent_initial st)) as [HD Hset].
  fold s in HD, Hset. repeat split; try done.
  - intros Hs. by destruct (Hset _ Hs).
  - eexists. split; [done|]. split; [apply fresh_not_allocated|].
    intros raw Hraw. by rewrite (loadSettings_run s HD), Hraw.
Qed.

End Runs.

(** * The statements on concrete runs *)

(** Scenario 2, through C1: [{apiToken: "abc"}] loads as
    [{apiToken: "abc", userId: ""}]. *)
Lemma loadSettings_merges_defaults_witness :
  let s := initial (disk_of token_only) in
  heap s !! DEFAULT_SETTINGS = Some DEFAULT_SETTINGS_init ∧
  loadData (store s) = inr (JObject token_only) ∧
  ∃ s' o, loadSettings s = (Ok tt, s') ∧ record s' = Some o ∧
          getProp o "apiToken" = JString "abc" ∧
          getProp o "userId" = JString "".
Proof.
  intros s.
  assert (heap s !! DEFAULT_SETTINGS = Some DEFAULT_SETTINGS_init) as HD
    by reflexivity.
  assert (loadData (store s) = inr (JObject token_only)) as HR by reflexivity.
  split; [exact HD|]. split; [exact HR|].
  destruct (loadSettings_merges_defaults s token_only HD HR)
    as (s' & o & Hrun & Hrec & Hf & _).
  exists s', o. repeat split; [done | done | apply (Hf apiToken) | apply (Hf userId)].
Defined.

(** Scenario 1, through C6: a first run loads the defaults. *)
Lemma loadSettings_without_prior_data_witness :
  let s := initial no_data in
  heap s !! DEFAULT_SETTINGS = Some DEFAULT_SETTINGS_init ∧
  loadData (store s) = inr JNull ∧
  ∃ s', loadSettings s = (Ok tt, s') ∧ record s' = Some DEFAULT_SETTINGS_init.
Proof.
  intros s.
  assert (heap s !! DEFAULT_SETTINGS = Some DEFAULT_SETTINGS_init) as HD
    by reflexivity.
  assert (loadData (store s) = inr JNull) as HR by reflexivity.
  split; [exact HD|]. split; [exact HR|].
  destruct (loadSettings_without_prior_data s JNull HD HR (or_introl eq_refl))
    as (s' & Hrun & Hrec & _).
  by exists s'.
Defined.

(** C7 on a store that has a document. *)
Lemma loadSettings_idempotent_witness :
  let s := initial (disk_of token_only) in
  heap s !! DEFAULT_SETTINGS = Some DEFAULT_SETTINGS_init ∧
  fst (loadSettings (snd (loadSettings s))) = fst (loadSettings s) ∧
  ∃ o, record (snd (loadSettings s)) = Some o ∧
       record (snd (loadSettings (snd (loadSettings s)))) = Some o.
Proof.
  intros s.
  assert (heap s !! DEFAULT_SETTINGS = Some DEFAULT_SETTINGS_init) as HD
    by reflexivity.
  split; [exact HD|].
  destruct (loadSettings_idempotent s HD) as (_ & Hsame & Hrec & _).
  split; [exact Hsame|]. apply Hrec. reflexivity.
Defined.

(** Scenario 3, through C2: from the defaults, [update("apiToken", "xyz")],
    a save and a load in a new instance. *)
Lemma save_then_fresh_load_roundtrip_witness :
  let s := run_ops [DoLoadSettings; DoUpdate apiToken "xyz"] (initial no_data) in
  let s' := snd (saveSettings s) in
  is_Some (record s) ∧
  saveSettings s = (Ok tt, s') ∧
  ∃ s'', loadSettings (initial (store s')) = (Ok tt, s'') ∧
         record s'' = record s ∧
         (getProp <$> record s'') = (getProp <$> record s).
Proof.
  intros s s'.
  assert (is_Some (record s)) as Hrec by (vm_compute; eauto).
  assert (saveSettings s = (Ok tt, s')) as Hsave by (vm_compute; reflexivity).
  split; [exact Hrec|]. split; [exact Hsave|].
  destruct (save_then_fresh_load_roundtrip no_data
              [DoLoadSettings; DoUpdate apiToken "xyz"] s' Hrec Hsave)
    as (s'' & Hrun & Heq).
  exists s''. split; [exact Hrun|]. split; [exact Heq|]. by rewrite Heq.
Defined.

(** C3 as amended, on a document with a property outside the interface. *)
Lemma loadSettings_keeps_extra_fields_witness :
  let s := initial (disk_of with_theme) in
  heap s !! DEFAULT_SETTINGS = Some DEFAULT_SETTINGS_init ∧
  loadData (store s) = inr (JObject with_theme) ∧
  ∃ s' o, loadSettings s = (Ok tt, s') ∧ record s' = Some o ∧
          o !! "theme" = Some (JString "dark") ∧
          trace (snd (saveSettings s')) = trace s' ++ [SaveData (JObject o)].
Proof.
  intros s.
  assert (heap s !! DEFAULT_SETTINGS = Some DEFAULT_SETTINGS_init) as HD
    by reflexivity.
  assert (loadData (store s) = inr (JObject with_theme)) as HR by reflexivity.
  split; [exact HD|]. split; [exact HR|].
  destruct (loadSettings_keeps_extra_fields s with_theme HD HR)
    as (s' & o & Hrun & Hrec & _ & Hkeep & Hsave).
  exists s', o. repeat split; [done | done | | done].
  apply Hkeep; [discriminate | reflexivity].
Defined.

(** C3 as the specification words it fails on that document: the loaded
    record has the property [theme], so it is not confined to the fields of
    the interface, and the save that follows writes [theme] to the store,
    from where the next load reads it again. *)
Lemma extra_field_is_loaded_and_saved :
  let s := initial (disk_of with_theme) in
  let s' := snd (loadSettings s) in
  let s'' := snd (saveSettings s') in
  let o := with_theme ∪ DEFAULT_SETTINGS_init in
  loadData (store s) = inr (JObject with_theme) ∧
  loadSettings s = (Ok tt, s') ∧
  record s' = Some o ∧
  o !! "theme" = Some (JString "dark") ∧
  ¬ only_interface_fields o ∧
  saveSettings s' = (Ok tt, s'') ∧
  file (store s'') = Some (JObject o) ∧
  record (snd (loadSettings (initial (store s'')))) = Some o.
Proof.
  intros s s' s'' o. repeat split; try (vm_compute; reflexivity).
  intros Honly. destruct (Honly "theme") as [[=] | [=]].
  eexists. vm_compute. reflexivity.
Qed.

(** C4 on a loaded first-run record: the token is written twice, the user id
    never. *)
Lemma updates_last_write_wins_witness :
  let s := run_ops [DoLoadSettings] (initial no_data) in
  let ups := [(apiToken, "a"); (apiToken, "xyz")] in
  settings s = Some 1 ∧
  heap s !! 1 = Some DEFAULT_SETTINGS_init ∧
  ∃ s' o', updates ups s = (Ok tt, s') ∧ heap s' !! 1 = Some o' ∧
           o' !! "apiToken" = Some (JString "xyz") ∧
           o' !! "userId" = Some (JString "") ∧
           store s' = store s ∧ trace s' = trace s.
Proof.
  intros s ups.
  assert (settings s = Some 1) as Hs by reflexivity.
  assert (heap s !! 1 = Some DEFAULT_SETTINGS_init) as Ho by (vm_compute; reflexivity).
  split; [exact Hs|]. split; [exact Ho|].
  destruct (updates_last_write_wins ups s 1 DEFAULT_SETTINGS_init Hs Ho)
    as (s' & o' & Hrun & _ & Ho' & Hlast & _ & Hstore & Htrace).
  exists s', o'. split; [exact Hrun|]. split; [exact Ho'|].
  split; [apply (Hlast "apiToken")|]. split; [apply (Hlast "userId")|]. done.
Defined.

(** Scenario 4, through C5: the disk broke after the load; the edit stays in
    memory and the handler ends with the disk's error. *)
Lemma save_failure_propagates_witness :
  let s := loaded_then_broken in
  let o' := <[ "apiToken" := JString "xyz" ]> DEFAULT_SETTINGS_init in
  settings s = Some 1 ∧
  heap s !! 1 = Some DEFAULT_SETTINGS_init ∧
  saveData (JObject o') (store s) = (inl (JString "EIO"), store s) ∧
  fst (onChange apiToken "xyz" s) = Throw (StorageFailure (JString "EIO")) ∧
  record (snd (onChange apiToken "xyz" s)) = Some o' ∧
  trace (snd (onChange apiToken "xyz" s)) = trace s ++ [SaveData (JObject o')].
Proof.
  intros s o'.
  assert (settings s = Some 1) as Hs by reflexivity.
  assert (heap s !! 1 = Some DEFAULT_SETTINGS_init) as Ho by (vm_compute; reflexivity).
  assert (saveData (JObject o') (store s) = (inl (JString "EIO"), store s)) as Hfail
    by reflexivity.
  split; [exact Hs|]. split; [exact Ho|]. split; [exact Hfail|].
  destruct (save_failure_propagates s 1 DEFAULT_SETTINGS_init apiToken "xyz"
              (JString "EIO") (store s) Hs Ho Hfail)
    as (_ & _ & Hchange & Hrec).
  rewrite Hchange. by repeat split.
Defined.

(** C8 on a first run. *)
Lemma onload_loads_before_registering_witness :
  let s := initial no_data in
  heap s !! DEFAULT_SETTINGS = Some DEFAULT_SETTINGS_init ∧
  ∃ loaded s' : State Disk,
    onload s = (Ok tt, s') ∧
    trace s' = [ ConsoleLog "Loading Habitica Plugin"; LoadData;
                 AddSettingTab; AddRibbonIcon "checkmark" "Sync with Habitica" ] ∧
    trace loaded = [ ConsoleLog "Loading Habitica Plugin"; LoadData ] ∧
    record loaded = Some DEFAULT_SETTINGS_init ∧
    record s' = Some DEFAULT_SETTINGS_init.
Proof.
  intros s.
  assert (heap s !! DEFAULT_SETTINGS = Some DEFAULT_SETTINGS_init) as HD
    by reflexivity.
  split; [exact HD|].
  pose proof (onload_loads_before_registering s HD) as Honload.
  change (loadData (store s)) with (@inr JsValue _ JNull) in Honload.
  cbn iota beta in Honload.
  destruct Honload as (loaded & s' & o & _ & _ & Hrun & Htl & Hts & Hrl & Hrs & Ho & _).
  exists loaded, s'. rewrite Hts, Htl, Hrl, Hrs, Ho. by repeat split.
Defined.

(** Scenario 5, through C9. *)
Example sync_then_nothing_changed :
  let s := run_ops [DoOnload] (initial no_data) in
  let s' := snd (syncCallback s) in
  fst (syncCallback s) = Ok tt ∧
  trace s' = trace s ++ [NewNotice "Syncing with Habitica..."] ∧
  heap s' = heap s ∧ settings s' = settings s ∧ store s' = store s.
Proof. done. Qed.

(** Before the first load [this.settings] is [undefined]: an edit is a
    TypeError and [display] cannot read its initial values. *)
Example edit_before_load :
  update apiToken "xyz" (initial no_data) = (Throw TypeError, initial no_data) ∧
  display (initial no_data) = Throw TypeError.
Proof. done. Qed.

(** A stored document that is not a mapping is still merged, as
    [Object.assign] sees it: a string contributes its characters under their
    indices. *)
Example load_of_a_string :
  record (snd (loadSettings (initial (mkDisk (Some (JString "hi")) false)))) =
    Some (<[ "0" := JString "h" ]> (<[ "1" := JString "i" ]> DEFAULT_SETTINGS_init)).
Proof. vm_compute. reflexivity. Qed.

(** A stored key ["__proto__"] does not become a property of the record. *)
Example load_of_proto_key :
  let doc := <[ "__proto__" := JObject {[ "userId" := JString "u" ]} ]> token_only in
  record (snd (loadSettings (initial (disk_of doc)))) =
    Some (<[ "apiToken" := JString "abc" ]> DEFAULT_SETTINGS_init).
Proof. vm_compute. reflexivity. Qed.

(** * Further properties of the plugin *)

Section More.
Context {Store : Type} {B : Backend Store}.
Implicit Types (s : State Store) (o : JsObj) (l : loc).

(** ** The [onChange] handlers *)

(** X1: on a loaded record, when the backend accepts the save, a handler
    ends normally; the record has the new value for its field and is
    otherwise as before; [saveData] was called once, with the whole updated
    record; the store is the one [saveData] left; no other object changed. *)
Theorem onChange_saves_whole_record s l o f value st' :
  settings s = Some l →
  heap s !! l = Some o →
  let o' := <[ field_name f := JString value ]> o in
  saveData (JObject o') (store s) = (inr tt, st') →
  ∃ s', onChange f value s = (Ok tt, s') ∧
        settings s' = Some l ∧ record s' = Some o' ∧
        (∀ k, k ≠ field_name f → o' !! k = o !! k) ∧
        store s' = st' ∧
        trace s' = trace s ++ [SaveData (JObject o')] ∧
        ∀ l', l' ≠ l → heap s' !! l' = heap s !! l'.
Proof.
  intros Hs Ho o' Hsave.
  unfold onChange. erewrite bind_ok by (by apply update_run).
  rewrite saveSettings_run. unfold settings_value. cbn [settings heap store trace].
  rewrite lookup_alter_eq, Ho. cbn. fold o'. rewrite Hsave.
  eexists. split; [done|]. unfold record. cbn.
  rewrite lookup_alter_eq, Ho. repeat split; try done.
  - intros k Hk. subst o'. by rewrite lookup_insert_ne.
  - intros l' Hl'. by rewrite lookup_alter_ne.
Qed.

(** X2: while [this.settings] is [undefined] (no load has resolved yet), a
    handler throws a TypeError before it can save: the state and the log are
    as they were.  [display] throws as well, and [saveSettings] passes
    [undefined] to [saveData]. *)
Theorem before_first_load s f value :
  settings s = None →
  onChange f value s = (Throw TypeError, s) ∧
  display s = Throw TypeError ∧
  trace (snd (saveSettings s)) = trace s ++ [SaveData JUndefined].
Proof.
  intros Hs. split; [|split].
  - unfold onChange. by erewrite bind_throw by (by apply update_undefined).
  - unfold display, record. by rewrite Hs.
  - rewrite saveSettings_run. unfold settings_value. rewrite Hs. cbn.
    by destruct (saveData JUndefined (store s)) as [[?|?] ?].
Qed.

(** ** Loading *)

(** X3: when [loadData] rejects, [loadSettings] ends with that rejection as
    a storage failure after one call to the backend; [this.settings] refers
    to what it did before, the store is untouched, and every object that
    existed has the contents it had (the record in memory is kept). *)
Theorem loadSettings_rejected s reason :
  heap s !! DEFAULT_SETTINGS = Some DEFAULT_SETTINGS_init →
  loadData (store s) = inl reason →
  ∃ s', loadSettings s = (Throw (StorageFailure reason), s') ∧
        settings s' = settings s ∧ store s' = store s ∧
        trace s' = trace s ++ [LoadData] ∧
        (∀ l, is_Some (heap s !! l) → heap s' !! l = heap s !! l) ∧
        (is_Some (record s) → record s' = record s).
Proof.
  intros HD Hrej. rewrite (loadSettings_run s HD), Hrej. cbn zeta.
  eexists. split; [done|]. cbn [settings store trace heap].
  assert (∀ l, is_Some (heap s !! l) →
               <[ fresh (dom (heap s)) := ∅ ]> (heap s) !! l = heap s !! l) as Hframe.
  { intros l Hl. apply lookup_insert_ne. by apply fresh_ne_allocated. }
  repeat split; try done.
  unfold record. cbn [settings heap]. destruct (settings s) as [l|]; [|done].
  intros Hl. by apply Hframe.
Qed.

(** X4: a load never writes an object that existed, whether it resolves or
    rejects; in particular a record loaded earlier keeps its contents for
    whoever still holds it. *)
Theorem loadSettings_writes_no_existing_object s l :
  heap s !! DEFAULT_SETTINGS = Some DEFAULT_SETTINGS_init →
  is_Some (heap s !! l) →
  heap (snd (loadSettings s)) !! l = heap s !! l.
Proof.
  intros HD Hl. rewrite (loadSettings_run s HD). cbn zeta.
  destruct (loadData (store s)); cbn [snd heap];
    apply lookup_insert_ne; by apply fresh_ne_allocated.
Qed.

(** *** Documents that are not mappings *)

Lemma pretty_N_char_digit (x : N) : is_digit (pretty_N_char x) = true.
Proof. unfold pretty_N_char. by repeat case_match. Qed.

Lemma pretty_N_go_digits (x : N) (acc : string) :
  all_digits acc = true → all_digits (pretty_N_go x acc) = true.
Proof.
  revert acc. induction (N.lt_wf_0 x) as [x _ IH]; intros acc Hacc.
  assert (x = 0 ∨ 0 < x)%N as [->|Hpos] by lia.
  - by rewrite pretty_N_go_0.
  - rewrite pretty_N_go_step by done. apply IH.
    + by apply N.div_lt.
    + cbn. by rewrite pretty_N_char_digit.
Qed.

(** The key of an index is a decimal numeral. *)
Lemma pretty_nat_digits (i : nat) : all_digits (pretty i) = true.
Proof.
  unfold pretty, pretty_nat, pretty, pretty_N.
  case_decide; [done|]. by apply pretty_N_go_digits.
Qed.

Lemma index_props_keys (items : list JsValue) (k : string) (v : JsValue) :
  index_props items !! k = Some v → ∃ i, k = pretty i ∧ items !! i = Some v.
Proof.
  intros Hk. apply elem_of_list_to_map_2 in Hk.
  apply elem_of_lookup_imap_1 in Hk as (i & x & [= -> ->] & Hi). eauto.
Qed.


Lemma ownProps_not_mapping (raw : JsValue) :
  is_mapping raw = false → ownProps raw = index_props (elements raw).
Proof. by destruct raw. Qed.

Lemma assigned_index_props (items : list JsValue) :
  assigned (index_props items) = index_props items.
Proof.
  apply delete_id. destruct (index_props items !! "__proto__") eqn:Hk; [|done].
  apply index_props_keys in Hk as (i & Hi & _).
  pose proof (pretty_nat_digits i) as Hd. by rewrite <- Hi in Hd.
Qed.

Lemma index_props_no_field (items : list JsValue) (f : Field) :
  index_props items !! field_name f = None.
Proof.
  destruct (index_props items !! field_name f) eqn:Hk; [|done].
  apply index_props_keys in Hk as (i & Hi & _).
  pose proof (pretty_nat_digits i) as Hd. rewrite <- Hi in Hd. by destruct f.
Qed.

(** X5: a stored document that is not a mapping ([null], a boolean, a
    number, a string, an array) never overrides a setting: the load resolves
    and both [apiToken] and [userId] are the empty string.  When the
    document has no elements (anything but a non-empty string or array) the
    record is exactly the default one. *)
Theorem load_of_non_mapping_keeps_defaults s raw :
  heap s !! DEFAULT_SETTINGS = Some DEFAULT_SETTINGS_init →
  loadData (store s) = inr raw →
  is_mapping raw = false →
  ∃ s' o, loadSettings s = (Ok tt, s') ∧ record s' = Some o ∧
          (∀ f, o !! field_name f = Some (JString "")) ∧
          (elements raw = [] → o = DEFAULT_SETTINGS_init).
Proof.
  intros HD Hraw Hno.
  destruct (loadSettings_record s raw HD Hraw) as (s' & Hrun & Hrec & _).
  rewrite (ownProps_not_mapping raw Hno), assigned_index_props in Hrec.
  eexists _, _. split; [done|]. split; [done|]. split.
  - intros f. rewrite lookup_union_r by apply index_props_no_field.
    by destruct f.
  - intros ->. apply (left_id_L ∅ (∪)).
Qed.


(** ** Whole runs *)

(** X7: in every state the plugin reaches, either no load has resolved yet
    and [display] throws a TypeError, or [this.settings] is an object other
    than [DEFAULT_SETTINGS] that has both fields of the interface, and
    [display] builds its rows from it. *)
Theorem reachable_record_is_complete (st : Store) (ops : list Op) :
  let s := run_ops ops (initial st) in
  match settings s with
  | None => record s = None ∧ display s = Throw TypeError
  | Some l =>
      ∃ o, heap s !! l = Some o ∧ record s = Some o ∧ complete o ∧
           display s = Ok (rows o)
  end.
Proof.
  intros s.
  destruct (consistent_run_ops ops _ (consistent_initial st)) as [_ Hset].
  fold s in Hset. unfold display, record.
  destruct (settings s) as [l|]; [|done].
  destruct (Hset l eq_refl) as (_ & o & Ho & Hp & Hf).
  exists o. by rewrite Ho.
Qed.

Lemma settings_kept_or_set op s :
  is_Some (settings s) → is_Some (settings (snd (run_op op s))).
Proof.
  intros Hs.
  assert (is_Some (settings (snd (loadSettings s)))) as Hload.
  { unfold loadSettings, bind, new_object, await_loadData, emit, Object_assign.
    cbn. by destruct (loadData (store s)). }
  assert (∀ s0, settings (snd (saveSettings s0)) = settings s0) as Hsave.
  { intros s0. rewrite saveSettings_run. cbn zeta.
    by destruct (saveData (settings_value s0) (store s0)) as [[?|?] ?]. }
  assert (∀ f v s0, settings (snd (update f v s0)) = settings s0) as Hupd.
  { intros f v s0. destruct (settings s0) as [l|] eqn:Hl.
    - by rewrite (update_run s0 l).
    - by rewrite update_undefined. }
  destruct op; cbn [run_op]; try done.
  - unfold onload, console_log, addSettingTab, addRibbonIcon, emit.
    unfold bind at 1. cbn iota beta.
    unfold loadSettings, bind, new_object, await_loadData, emit, Object_assign.
    cbn. by destruct (loadData (store s)).
  - by rewrite Hsave.
  - by rewrite Hupd.
  - unfold onChange, bind. specialize (Hupd f value s).
    destruct (update f value s) as [[[]|e] s1]; cbn in *; [|by rewrite Hupd].
    by rewrite Hsave, Hupd.
Qed.

(** X8: once a load has resolved, [this.settings] never becomes [undefined]
    again, whatever the plugin is made to do, failed loads and failed saves
    included: no later edit throws a TypeError. *)
Theorem settings_never_unset s (ops : list Op) f value :
  is_Some (settings s) →
  is_Some (settings (run_ops ops s)) ∧
  fst (update f value (run_ops ops s)) = Ok tt.
Proof.
  intros Hs.
  assert (is_Some (settings (run_ops ops s))) as [l Hl].
  { revert s Hs. induction ops as [|op ops IH]; intros s Hs; [done|].
    apply IH. by apply settings_kept_or_set. }
  split; [by exists l|]. by rewrite (update_run _ l).
Qed.

Lemma saved_snoc (tr : list Event) (ev : Event) :
  saved (tr ++ [ev]) =
    saved tr ++ match ev with SaveData data => [data] | _ => [] end.
Proof. unfold saved. rewrite omap_app. by destruct ev. Qed.

Lemma loadSettings_store_trace s :
  store (snd (loadSettings s)) = store s ∧
  saved (trace (snd (loadSettings s))) = saved (trace s).
Proof.
  unfold loadSettings, bind, new_object, await_loadData, emit, Object_assign.
  cbn. destruct (loadData (store s)); cbn;
    by rewrite saved_snoc, (right_id_L [] (++)).
Qed.

Lemma quiet_loadSettings : quiet loadSettings.
Proof. intros s. apply loadSettings_store_trace. Qed.

Lemma quiet_emit ev :
  match ev with SaveData _ => False | _ => True end → quiet (@emit Store ev).
Proof.
  intros Hev s. split; [done|]. cbn. rewrite saved_snoc.
  destruct ev; by rewrite ?(right_id_L [] (++)).
Qed.

Lemma quiet_bind {A C} (m : @M Store A) (k : A → @M Store C) :
  quiet m → (∀ a, quiet (k a)) → quiet (bind m k).
Proof.
  intros Hm Hk s. unfold bind. destruct (Hm s) as [Hst Htr].
  destruct (m s) as [[a|e] s1]; cbn in *; [|done].
  destruct (Hk a s1) as [Hst' Htr']. by rewrite Hst', Htr'.
Qed.

Lemma onload_store_trace s :
  store (snd (onload s)) = store s ∧
  saved (trace (snd (onload s))) = saved (trace s).
Proof.
  revert s. unfold onload, console_log, addSettingTab, addRibbonIcon.
  repeat (apply quiet_bind; [|intros _]);
    first [apply quiet_loadSettings | by apply quiet_emit].
Qed.

(** What an operation hands to [saveData]. *)
Lemma run_op_saved op s :
  saved (trace (snd (run_op op s))) =
    saved (trace s) ++
    match op with
    | DoSaveSettings => [settings_value s]
    | DoChange f v =>
        match update f v s with
        | (Ok _, s1) => [settings_value s1]
        | (Throw _, _) => []
        end
    | _ => []
    end.
Proof.
  destruct op; cbn [run_op]; rewrite ?(right_id_L [] (++)).
  - apply onload_store_trace.
  - unfold onunload, console_log. cbn. by rewrite saved_snoc, (right_id_L [] (++)).
  - apply loadSettings_store_trace.
  - rewrite saveSettings_run. cbn zeta.
    destruct (saveData (settings_value s) (store s)) as [[?|?] ?]; cbn;
      by rewrite saved_snoc.
  - destruct (settings s) as [l|] eqn:Hl.
    + by rewrite (update_run s l).
    + by rewrite update_undefined.
  - unfold onChange, bind.
    destruct (settings s) as [l|] eqn:Hl.
    + rewrite (update_run s l) by done. rewrite saveSettings_run. cbn zeta.
      destruct (saveData _ _) as [[?|?] ?]; cbn; by rewrite saved_snoc.
    + rewrite update_undefined by done. cbn. by rewrite (right_id_L [] (++)).
  - unfold syncCallback, new_Notice. cbn. by rewrite saved_snoc, (right_id_L [] (++)).
Qed.

(** X9: what each operation can touch.  Only [saveSettings] and the
    [onChange] handlers call [saveData] or change the store; only
    [loadSettings] (and [onload] through it) assigns [this.settings];
    [onunload], [saveSettings] and the ribbon callback leave every object as
    it is, so unloading neither saves nor clears anything. *)
Theorem operation_footprint op s :
  let s' := snd (run_op op s) in
  match op with
  | DoSaveSettings | DoChange _ _ => True
  | _ => store s' = store s ∧ saved (trace s') = saved (trace s)
  end ∧
  match op with
  | DoOnload | DoLoadSettings => True
  | _ => settings s' = settings s
  end ∧
  match op with
  | DoOnunload | DoSaveSettings | DoSync => heap s' = heap s
  | _ => True
  end.
Proof.
  intros s'. subst s'. pose proof (run_op_saved op s) as Hsaved.
  assert (∀ s0, settings (snd (saveSettings s0)) = settings s0 ∧
                heap (snd (saveSettings s0)) = heap s0) as Hsave.
  { intros s0. rewrite saveSettings_run. cbn zeta.
    by destruct (saveData (settings_value s0) (store s0)) as [[?|?] ?]. }
  assert (∀ f v s0, settings (snd (update f v s0)) = settings s0 ∧
                    store (snd (update f v s0)) = store s0) as Hupd.
  { intros f v s0. destruct (settings s0) as [l|] eqn:Hl.
    - by rewrite (update_run s0 l).
    - by rewrite update_undefined. }
  destruct op; cbn [run_op] in *; rewrite ?(right_id_L [] (++)) in Hsaved;
    repeat split; try done.
  - apply onload_store_trace.
  - apply loadSettings_store_trace.
  - apply Hsave.
  - apply Hsave.
  - apply Hupd.
  - apply Hupd.
  - unfold onChange, bind. destruct (Hupd f value s) as [Hset _].
    destruct (update f value s) as [[[]|e] s1]; cbn in *; [|done].
    by rewrite (proj1 (Hsave s1)).
Qed.

Lemma settings_value_ok s : consistent s → saved_ok (settings_value s).
Proof.
  intros [_ Hset]. unfold settings_value.
  destruct (settings s) as [l|]; [|by left].
  destruct (Hset l eq_refl) as (_ & o & Ho & Hp & Hf).
  right. exists o. by rewrite Ho.
Qed.

Lemma saved_ok_run_ops (st : Store) (ops : list Op) :
  Forall saved_ok (saved (trace (run_ops ops (initial st)))).
Proof.
  cut (∀ s, consistent s → Forall saved_ok (saved (trace s)) →
            Forall saved_ok (saved (trace (run_ops ops s)))).
  { intros Hcut. apply Hcut; [apply consistent_initial | constructor]. }
  induction ops as [|op ops IH]; intros s Hs Hall; [done|].
  apply IH; [by apply consistent_run_op|].
  rewrite run_op_saved. apply Forall_app. split; [done|].
  destruct op; try (by constructor).
  - constructor; [by apply settings_value_ok | constructor].
  - pose proof (consistent_update f value s Hs) as Hs1.
    destruct (update f value s) as [[[]|e] s1]; constructor; [|constructor].
    by apply settings_value_ok.
Qed.

(** X10: every document the plugin ever hands to [saveData] is either
    [undefined] (a save before the first load) or a record with both
    [apiToken] and [userId] and no own ["__proto__"]: a partial record is
    never written. *)
Theorem every_saved_document_is_complete (st : Store) (ops : list Op) data :
  data ∈ saved (trace (run_ops ops (initial st))) →
  data = JUndefined ∨ ∃ o, data = JObject o ∧ complete o.
Proof.
  intros Hin. pose proof (saved_ok_run_ops st ops) as Hall.
  rewrite Forall_forall in Hall. by apply Hall.
Qed.

(** ** Editing and displaying *)

(** X11: after a handler ran on a loaded record, whether its save resolved
    or was rejected, [display] shows the new value in the row of the edited
    field and the value it showed before in the other row: each row's
    handler writes the property that row reads. *)
Theorem display_after_edit s l o f value :
  settings s = Some l →
  heap s !! l = Some o →
  display s = Ok (rows o) ∧
  display (snd (onChange f value s)) =
    Ok [ Heading "Habitica Plugin Settings";
         TextSetting "API Token" "Your Habitica API Token" "Enter your API token"
                     match f with
                     | apiToken => JString value
                     | userId => getProp o "apiToken"
                     end apiToken;
         TextSetting "User ID" "Your Habitica User ID" "Enter your User ID"
                     match f with
                     | apiToken => getProp o "userId"
                     | userId => JString value
                     end userId ].
Proof.
  intros Hs Ho. split; [unfold display, record; by rewrite Hs, Ho|].
  unfold onChange. erewrite bind_ok by (by apply update_run).
  rewrite saveSettings_run. cbn zeta.
  set (s1 := mkState _ _ _ _).
  assert (record s1 = Some (<[ field_name f := JString value ]> o)) as Hrec.
  { unfold record. subst s1. cbn. by rewrite lookup_alter_eq, Ho. }
  assert (∀ s2, heap s2 = heap s1 → settings s2 = settings s1 →
                display s2 = display s1) as Hsame.
  { intros s2 Hh Hset. unfold display, record. by rewrite Hh, Hset. }
  rewrite (Hsame (snd _)).
  - unfold display. rewrite Hrec. unfold getProp.
    destruct f; cbn [field_name];
      by rewrite lookup_insert_eq, lookup_insert_ne.
  - by destruct (saveData _ _) as [[?|?] ?].
  - by destruct (saveData _ _) as [[?|?] ?].
Qed.

(** X13: edits of different fields commute: the two assignments leave the
    same state in either order. *)
Theorem updates_of_different_fields_commute s f g v w :
  f ≠ g →
  snd (update g w (snd (update f v s))) = snd (update f v (snd (update g w s))).
Proof.
  intros Hfg. destruct (settings s) as [l|] eqn:Hl.
  - rewrite (update_run s l f), (update_run s l g) by done. cbn [snd].
    rewrite (update_run _ l g), (update_run _ l f) by done.
    cbn [snd heap store trace]. f_equal.
    rewrite !alter_alter_eq. apply alter_ext. intros o _. unfold compose.
    apply insert_insert_ne. by destruct f, g.
  - by repeat (rewrite (update_undefined s) by done; cbn [snd]).
Qed.

(** A run of [update]s on a loaded record writes that record only. *)
Lemma updates_frame ups s l :
  settings s = Some l →
  ∃ s', updates ups s = (Ok tt, s') ∧ settings s' = Some l ∧
        store s' = store s ∧ trace s' = trace s ∧
        ∀ l', l' ≠ l → heap s' !! l' = heap s !! l'.
Proof.
  revert s. induction ups as [|[f v] ups IH]; intros s Hs.
  - by exists s.
  - cbn [updates]. erewrite bind_ok by (by apply update_run).
    set (s1 := mkState _ _ _ _).
    destruct (IH s1) as (s' & Hrun & Hs' & Hst & Htr & Hframe); [done|].
    exists s'. repeat split; try done.
    intros l' Hl'. rewrite (Hframe l' Hl'). cbn. by rewrite lookup_alter_ne.
Qed.

(** X14: edits that were not saved are lost by a reload: after any run that
    loaded a record, a sequence of [update]s followed by a load that
    resolves leaves the record the stored document gives, the same a load
    without the edits leaves. *)
Theorem reload_drops_unsaved_edits (st : Store) (ops : list Op) ups raw :
  let s := run_ops ops (initial st) in
  is_Some (settings s) →
  loadData (store s) = inr raw →
  ∃ s1 s2, updates ups s = (Ok tt, s1) ∧ loadSettings s1 = (Ok tt, s2) ∧
           record s2 = Some (assigned (ownProps raw) ∪ DEFAULT_SETTINGS_init) ∧
           record s2 = record (snd (loadSettings s)).
Proof.
  intros s [l Hl] Hraw.
  destruct (consistent_run_ops ops _ (consistent_initial st)) as [HD Hset].
  fold s in HD, Hset. destruct (Hset l Hl) as (Hne & _).
  destruct (updates_frame ups s l Hl) as (s1 & Hrun & _ & Hst & _ & Hframe).
  assert (heap s1 !! DEFAULT_SETTINGS = Some DEFAULT_SETTINGS_init) as HD1
    by (rewrite Hframe; done).
  rewrite <- Hst in Hraw.
  destruct (loadSettings_record s1 raw HD1 Hraw) as (s2 & Hload & Hrec & _).
  rewrite Hst in Hraw.
  destruct (loadSettings_record s raw HD Hraw) as (s2' & Hload' & Hrec' & _).
  exists s1, s2. rewrite Hload'. cbn [snd]. by rewrite Hrec'.
Qed.

(** ** Across a restart *)

Lemma onload_resolved s raw :
  heap s !! DEFAULT_SETTINGS = Some DEFAULT_SETTINGS_init →
  loadData (store s) = inr raw →
  ∃ s', onload s = (Ok tt, s') ∧
        record s' = Some (assigned (ownProps raw) ∪ DEFAULT_SETTINGS_init).
Proof.
  intros HD Hraw. unfold onload, console_log, addSettingTab, addRibbonIcon.
  unfold bind at 1. cbn [emit]. cbn iota beta.
  set (s0 := mkState _ _ _ _).
  destruct (loadSettings_record s0 raw HD Hraw) as (s1 & Hload & Hrec & _).
  rewrite (bind_ok _ _ _ _ _ Hload). eexists. split; [done|]. exact Hrec.
Qed.

(** X12: an edit made through a handler whose save resolved needs no flush
    at unload: over a faithful backend, after [onunload] a new instance's
    [onload] resolves with a record equal to the one in memory after the
    edit, the edited field included. *)
Theorem edit_survives_restart `{!Faithful B} (st : Store) (ops : list Op)
    f value s1 :
  onChange f value (run_ops ops (initial st)) = (Ok tt, s1) →
  ∃ s2 o, onload (initial (store (snd (onunload s1)))) = (Ok tt, s2) ∧
          record s1 = Some o ∧ record s2 = Some o ∧
          o !! field_name f = Some (JString value) ∧
          display s2 = Ok (rows o).
Proof.
  set (s := run_ops ops (initial st)). intros Hchange.
  pose proof (consistent_onChange f value s
                (consistent_run_ops ops _ (consistent_initial st))) as Hcons.
  rewrite Hchange in Hcons. cbn [snd] in Hcons. destruct Hcons as [_ Hset1].
  destruct (settings s) as [l|] eqn:Hl.
  2: { unfold onChange in Hchange.
       erewrite bind_throw in Hchange by (by apply update_undefined). done. }
  unfold onChange in Hchange.
  erewrite bind_ok in Hchange by (by apply update_run).
  rewrite saveSettings_run in Hchange. cbn zeta in Hchange.
  set (su := mkState _ _ _ _) in Hchange.
  destruct (saveData (settings_value su) (store su)) as [[reason|[]] st'] eqn:Hsave;
    [done|].
  injection Hchange as <-. apply load_after_save in Hsave.
  destruct (Hset1 l eq_refl) as (_ & o & Ho & Hp & Hf). cbn [heap] in Ho.
  assert (settings_value su = JObject o) as Hv.
  { unfold settings_value. subst su. cbn [settings heap]. by rewrite Ho. }
  rewrite Hv in Hsave.
  destruct (onload_resolved (initial st') (JObject o)) as (s2 & Hload & Hrec);
    [done..|].
  cbn [ownProps] in Hrec. unfold assigned in Hrec.
  rewrite (delete_id o _ Hp), (union_defaults_absorbed o Hf) in Hrec.
  exists s2, o. split; [exact Hload|]. split; [unfold record; cbn; by rewrite Ho|].
  split; [done|]. split.
  - subst su. cbn [heap] in Ho. rewrite lookup_alter_eq in Ho.
    destruct (heap s !! l) as [o0|]; [|done]. injection Ho as <-.
    apply lookup_insert_eq.
  - unfold display. by rewrite Hrec.
Qed.

End More.

(** * The further properties on concrete runs *)

(** X1 on a first-run record: the token is edited and the disk accepts. *)
Lemma onChange_saves_whole_record_witness :
  let s := run_ops [DoLoadSettings] (initial no_data) in
  let o' := <[ "apiToken" := JString "xyz" ]> DEFAULT_SETTINGS_init in
  settings s = Some 1 ∧
  heap s !! 1 = Some DEFAULT_SETTINGS_init ∧
  saveData (JObject o') (store s) = (inr tt, disk_of o') ∧
  ∃ s', onChange apiToken "xyz" s = (Ok tt, s') ∧
        record s' = Some o' ∧ store s' = disk_of o' ∧
        trace s' = trace s ++ [SaveData (JObject o')].
Proof.
  intros s o'.
  assert (settings s = Some 1) as Hs by reflexivity.
  assert (heap s !! 1 = Some DEFAULT_SETTINGS_init) as Ho by (vm_compute; reflexivity).
  assert (saveData (JObject o') (store s) = (inr tt, disk_of o')) as Hsave
    by reflexivity.
  split; [exact Hs|]. split; [exact Ho|]. split; [exact Hsave|].
  destruct (onChange_saves_whole_record s 1 DEFAULT_SETTINGS_init apiToken "xyz"
              (disk_of o') Hs Ho Hsave)
    as (s' & Hrun & _ & Hrec & _ & Hst & Htr & _).
  by exists s'.
Defined.

(** X2 on the state a new instance starts in. *)
Lemma before_first_load_witness :
  let s := initial no_data in
  settings s = None ∧
  onChange userId "u" s = (Throw TypeError, s) ∧
  display s = Throw TypeError.
Proof.
  intros s. assert (settings s = None) as Hs by reflexivity.
  split; [exact Hs|].
  destruct (before_first_load s userId "u" Hs) as (Hchange & Hdisplay & _).
  by split.
Defined.

(** X3 on a disk that is out of order from the start. *)
Lemma loadSettings_rejected_witness :
  let s := initial (mkDisk None true) in
  heap s !! DEFAULT_SETTINGS = Some DEFAULT_SETTINGS_init ∧
  loadData (store s) = inl (JString "EIO") ∧
  ∃ s', loadSettings s = (Throw (StorageFailure (JString "EIO")), s') ∧
        settings s' = None ∧ trace s' = [LoadData].
Proof.
  intros s.
  assert (heap s !! DEFAULT_SETTINGS = Some DEFAULT_SETTINGS_init) as HD
    by reflexivity.
  assert (loadData (store s) = inl (JString "EIO")) as Hrej by reflexivity.
  split; [exact HD|]. split; [exact Hrej|].
  destruct (loadSettings_rejected s (JString "EIO") HD Hrej)
    as (s' & Hrun & Hset & _ & Htr & _).
  by exists s'.
Defined.

(** X4: a second load leaves the first record where it was. *)
Lemma loadSettings_writes_no_existing_object_witness :
  let s := run_ops [DoLoadSettings; DoUpdate apiToken "xyz"] (initial no_data) in
  heap s !! DEFAULT_SETTINGS = Some DEFAULT_SETTINGS_init ∧
  is_Some (heap s !! 1) ∧
  heap (snd (loadSettings s)) !! 1 = heap s !! 1.
Proof.
  intros s.
  assert (heap s !! DEFAULT_SETTINGS = Some DEFAULT_SETTINGS_init) as HD
    by (vm_compute; reflexivity).
  assert (is_Some (heap s !! 1)) as Hl by (vm_compute; eauto).
  split; [exact HD|]. split; [exact Hl|].
  exact (loadSettings_writes_no_existing_object s 1 HD Hl).
Defined.

(** X5 on a [data.json] that holds [true]. *)
Lemma load_of_non_mapping_keeps_defaults_witness :
  let s := initial (mkDisk (Some (JBoolean true)) false) in
  heap s !! DEFAULT_SETTINGS = Some DEFAULT_SETTINGS_init ∧
  loadData (store s) = inr (JBoolean true) ∧
  is_mapping (JBoolean true) = false ∧
  ∃ s', loadSettings s = (Ok tt, s') ∧ record s' = Some DEFAULT_SETTINGS_init.
Proof.
  intros s.
  assert (heap s !! DEFAULT_SETTINGS = Some DEFAULT_SETTINGS_init) as HD
    by reflexivity.
  assert (loadData (store s) = inr (JBoolean true)) as Hraw by reflexivity.
  split; [exact HD|]. split; [exact Hraw|]. split; [reflexivity|].
  destruct (load_of_non_mapping_keeps_defaults s (JBoolean true) HD Hraw eq_refl)
    as (s' & o & Hrun & Hrec & _ & Hsame).
  exists s'. split; [exact Hrun|]. by rewrite Hrec, (Hsame eq_refl).
Defined.


(** X8: after a load, a rejected reload and an unload leave [this.settings]
    set. *)
Lemma settings_never_unset_witness :
  let s := run_ops [DoLoadSettings] (initial no_data) in
  let later := mkState (heap s) (settings s) (mkDisk None true) (trace s) in
  let ops := [DoLoadSettings; DoOnunload; DoChange userId "u"] in
  is_Some (settings later) ∧
  is_Some (settings (run_ops ops later)) ∧
  fst (update apiToken "xyz" (run_ops ops later)) = Ok tt.
Proof.
  intros s later ops.
  assert (is_Some (settings later)) as Hs by (vm_compute; eauto).
  split; [exact Hs|].
  exact (settings_never_unset later ops apiToken "xyz" Hs).
Defined.

(** X10 on a first run with one edit. *)
Lemma every_saved_document_is_complete_witness :
  let ops := [DoOnload; DoChange apiToken "xyz"] in
  let data := JObject (<[ "apiToken" := JString "xyz" ]> DEFAULT_SETTINGS_init) in
  data ∈ saved (trace (run_ops ops (initial no_data))) ∧
  (data = JUndefined ∨ ∃ o, data = JObject o ∧ complete o).
Proof.
  intros ops data.
  assert (data ∈ saved (trace (run_ops ops (initial no_data)))) as Hin
    by (vm_compute; constructor).
  split; [exact Hin|].
  exact (every_saved_document_is_complete no_data ops data Hin).
Defined.

(** X11 on a first-run record. *)
Lemma display_after_edit_witness :
  let s := run_ops [DoLoadSettings] (initial no_data) in
  settings s = Some 1 ∧
  heap s !! 1 = Some DEFAULT_SETTINGS_init ∧
  display (snd (onChange userId "u" s)) =
    Ok [ Heading "Habitica Plugin Settings";
         TextSetting "API Token" "Your Habitica API Token" "Enter your API token"
                     (JString "") apiToken;
         TextSetting "User ID" "Your Habitica User ID" "Enter your User ID"
                     (JString "u") userId ].
Proof.
  intros s.
  assert (settings s = Some 1) as Hs by reflexivity.
  assert (heap s !! 1 = Some DEFAULT_SETTINGS_init) as Ho by (vm_compute; reflexivity).
  split; [exact Hs|]. split; [exact Ho|].
  exact (proj2 (display_after_edit s 1 DEFAULT_SETTINGS_init userId "u" Hs Ho)).
Defined.

(** X12: first run, one edit, unload, start again. *)
Lemma edit_survives_restart_witness :
  let ops := [DoOnload] in
  let s1 := snd (onChange apiToken "xyz" (run_ops ops (initial no_data))) in
  onChange apiToken "xyz" (run_ops ops (initial no_data)) = (Ok tt, s1) ∧
  ∃ s2 o, onload (initial (store (snd (onunload s1)))) = (Ok tt, s2) ∧
          record s2 = Some o ∧ o !! "apiToken" = Some (JString "xyz").
Proof.
  intros ops s1.
  assert (onChange apiToken "xyz" (run_ops ops (initial no_data)) = (Ok tt, s1))
    as Hchange by (vm_compute; reflexivity).
  split; [exact Hchange|].
  destruct (edit_survives_restart no_data ops apiToken "xyz" s1 Hchange)
    as (s2 & o & Hload & _ & Hrec & Hf & _).
  by exists s2, o.
Defined.

(** X13 on the two fields of the interface. *)
Lemma updates_of_different_fields_commute_witness :
  let s := run_ops [DoLoadSettings] (initial no_data) in
  apiToken ≠ userId ∧
  snd (update userId "u" (snd (update apiToken "xyz" s))) =
    snd (update apiToken "xyz" (snd (update userId "u" s))).
Proof.
  intros s. assert (apiToken ≠ userId) as Hne by discriminate.
  split; [exact Hne|].
  exact (updates_of_different_fields_commute s apiToken userId "xyz" "u" Hne).
Defined.

(** X14: a stored token, an unsaved edit of the user id, a reload. *)
Lemma reload_drops_unsaved_edits_witness :
  let st := disk_of token_only in
  let ops := [DoLoadSettings] in
  let ups := [(userId, "u")] in
  is_Some (settings (run_ops ops (initial st))) ∧
  loadData (store (run_ops ops (initial st))) = inr (JObject token_only) ∧
  ∃ s1 s2, updates ups (run_ops ops (initial st)) = (Ok tt, s1) ∧
           loadSettings s1 = (Ok tt, s2) ∧
           (record s1 ≫= lookup "userId") = Some (JString "u") ∧
           (record s2 ≫= lookup "userId") = Some (JString "").
Proof.
  intros st ops ups.
  assert (is_Some (settings (run_ops ops (initial st)))) as Hs
    by (vm_compute; eauto).
  assert (loadData (store (run_ops ops (initial st))) = inr (JObject token_only))
    as Hraw by reflexivity.
  split; [exact Hs|]. split; [exact Hraw|].
  destruct (reload_drops_unsaved_edits st ops ups (JObject token_only) Hs Hraw)
    as (s1 & s2 & Hups & Hload & Hrec & _).
  exists s1, s2. split; [exact Hups|]. split; [exact Hload|].
  rewrite Hrec. split; [|reflexivity].
  assert (s1 = snd (updates ups (run_ops ops (initial st)))) as ->
    by (by rewrite Hups).
  vm_compute. reflexivity.
Defined.
